(** * Veni Vici: the ban filter, the selector and the ban-list store

    A shallow embedding of [veni_vici/src/App.jsx].  The component keeps
    four pieces of React state ([item], [loading], [error], [banList]);
    [fetchRandomArtwork] and [handleBanToggle] are modelled as functions
    on that state, the asynchronous fetch as a begin step and a settle
    step that carries the ban list captured by the closure. *)

From Stdlib Require Import List String Ascii Bool Arith ZArith Lia.
From Stdlib Require Import QArith Qround Permutation.
Import ListNotations.

Local Close Scope Q_scope.
Local Open Scope string_scope.
Local Open Scope list_scope.

(** ** JavaScript values held by the fields of a catalog record

    The catalog answers each requested text field with a string or with
    [null]; a field can also be missing from the object ([undefined]).
    Strings are sequences of characters; the only character the code
    inspects is the colon. *)
Module JS.

Inductive value : Type :=
| Undefined
| Null
| Str (s : string).

(** [!!v] *)
Definition truthy (v : value) : bool :=
  match v with
  | Str s => negb (String.eqb s "")
  | _ => false
  end.

(** The coercion of a template literal, [`${v}`]. *)
Definition toString (v : value) : string :=
  match v with
  | Undefined => "undefined"
  | Null => "null"
  | Str s => s
  end.

(** [arr[i]] on an array of strings. *)
Definition index (arr : list string) (i : nat) : value :=
  match nth_error arr i with
  | Some s => Str s
  | None => Undefined
  end.

(** [arr.includes(x)] on an array of strings. *)
Definition includes (arr : list string) (x : string) : bool :=
  existsb (String.eqb x) arr.

(** [s.split(sep)] for a separator of one character. *)
Fixpoint split (sep : ascii) (s : string) : list string :=
  match s with
  | EmptyString => [EmptyString]
  | String ch rest =>
      if Ascii.eqb ch sep then EmptyString :: split sep rest
      else match split sep rest with
           | [] => [String ch EmptyString]
           | p :: ps => String ch p :: ps
           end
  end.

(** [s.includes(ch)] for one character. *)
Fixpoint contains (ch : ascii) (s : string) : bool :=
  match s with
  | EmptyString => false
  | String c rest => Ascii.eqb c ch || contains ch rest
  end.

End JS.

Definition colon : ascii := ":"%char.

(** ** Records *)

(** One element of [data.data], with the fields the query asks for. *)
Record Artwork : Type := mkArtwork {
  id : Z;
  title : JS.value;
  artist_title : JS.value;
  date_display : JS.value;
  image_id : JS.value;
  style_title : JS.value;
  place_of_origin : JS.value;
  medium_display : JS.value
}.

(** The object built at [newItem] and stored by [setItem]. *)
Record Item : Type := mkItem {
  item_id : Z;
  item_title : JS.value;
  artist : JS.value;
  date : JS.value;
  style : JS.value;
  place : JS.value;
  medium : JS.value;
  imageUrl : string
}.

(** The three ban categories the interface offers. *)
Inductive Category : Type := CArtist | CStyle | CPlace.

Definition category_name (c : Category) : string :=
  match c with
  | CArtist => "artist"
  | CStyle => "style"
  | CPlace => "place"
  end.

Definition artwork_field (c : Category) (a : Artwork) : JS.value :=
  match c with
  | CArtist => artist_title a
  | CStyle => style_title a
  | CPlace => place_of_origin a
  end.

Definition item_field (c : Category) (it : Item) : JS.value :=
  match c with
  | CArtist => artist it
  | CStyle => style it
  | CPlace => place it
  end.

(** [`${type}:${value}`]: how a ban entry is stored in [banList]. *)
Definition banValue (type : string) (value : JS.value) : string :=
  type ++ ":" ++ JS.toString value.

(** The entry of category [c] and text [v]. *)
Definition entry (c : Category) (v : string) : string :=
  banValue (category_name c) (JS.Str v).

(** ** The ban filter (the callback of [data.data.filter]) *)

Definition banned (banList : list string) (type : string) (v : JS.value) : bool :=
  JS.truthy v && JS.includes banList (banValue type v).

Definition keepArtwork (banList : list string) (artwork : Artwork) : bool :=
  if negb (JS.truthy (image_id artwork)) then false
  else if banned banList "artist" (artist_title artwork) then false
  else if banned banList "style" (style_title artwork) then false
  else if banned banList "place" (place_of_origin artwork) then false
  else true.

Definition filteredArtworks (banList : list string) (data : list Artwork) : list Artwork :=
  filter (keepArtwork banList) data.

(** ** The selector *)

(** [Math.floor(Math.random() * length)], the draw [r] taken as an exact
    rational. *)
Definition randomIndex (r : Q) (len : nat) : Z :=
  Qfloor (r * inject_Z (Z.of_nat len))%Q.

(** [filteredArtworks[randomIndex]]; [None] is [undefined]. *)
Definition randomArtwork (r : Q) (filtered : list Artwork) : option Artwork :=
  let i := randomIndex r (List.length filtered) in
  if (i <? 0)%Z then None else nth_error filtered (Z.to_nat i).

Definition newItem (a : Artwork) : Item :=
  {| item_id := id a;
     item_title := title a;
     artist := artist_title a;
     date := date_display a;
     style := style_title a;
     place := place_of_origin a;
     medium := medium_display a;
     imageUrl := "https://www.artic.edu/iiif/2/" ++ JS.toString (image_id a)
                 ++ "/full/843,/0/default.jpg" |}.

(** ** Component state *)

Record State : Type := mkState {
  item : option Item;
  loading : bool;
  error : option string;
  banList : list string
}.

(** [useState(null)], [useState(false)], [useState(null)], [useState([])]. *)
Definition initialState : State :=
  {| item := None; loading := false; error := None; banList := [] |}.

Definition setItem (x : option Item) (s : State) : State :=
  {| item := x; loading := loading s; error := error s; banList := banList s |}.

Definition setLoading (b : bool) (s : State) : State :=
  {| item := item s; loading := b; error := error s; banList := banList s |}.

Definition setError (e : option string) (s : State) : State :=
  {| item := item s; loading := loading s; error := e; banList := banList s |}.

Definition setBanList (l : list string) (s : State) : State :=
  {| item := item s; loading := loading s; error := error s; banList := l |}.

(** What the page shows: [item && !loading]. *)
Definition displayed (s : State) : option Item :=
  if loading s then None else item s.

(** ** The ban-list store *)

(** The ban list after [handleBanToggle(type, value)], as a function of
    the ban list before (see [handleBanToggle_banList]). *)
Definition toggleList (type value : JS.value) (l : list string) : list string :=
  if negb (JS.truthy value) then l
  else
    let bv := banValue (JS.toString type) value in
    if JS.includes l bv
    then filter (fun it => negb (String.eqb it bv)) l
    else l ++ [bv].

(** [handleBanToggle]: an early return on a falsy value, otherwise one
    [setBanList]. *)
Definition handleBanToggle (type value : JS.value) (s : State) : State :=
  if negb (JS.truthy value) then s
  else
    let bv := banValue (JS.toString type) value in
    if JS.includes (banList s) bv
    then setBanList (filter (fun it => negb (String.eqb it bv)) (banList s)) s
    else setBanList (banList s ++ [bv]) s.

Definition getDisplayValue (bv : string) : JS.value :=
  let parts := JS.split colon bv in
  if Nat.ltb 1 (List.length parts) then JS.index parts 1 else JS.Str bv.

Definition getBanType (bv : string) : JS.value :=
  let parts := JS.split colon bv in
  if Nat.ltb 1 (List.length parts) then JS.index parts 0 else JS.Str "unknown".

(** The click handler of a displayed attribute. *)
Definition clickAttribute (c : Category) (it : Item) (s : State) : State :=
  handleBanToggle (JS.Str (category_name c)) (item_field c it) s.

(** The click handler of a ban-list row. *)
Definition clickBanEntry (bv : string) (s : State) : State :=
  handleBanToggle (getBanType bv) (getDisplayValue bv) s.

(** ** Refresh *)

(** How the awaited part of [fetchRandomArtwork] ends: the promise of
    [fetch] or of [response.json()] rejects with an error of the given
    message, or the body is parsed and [data.data] is read ([None] when
    it is absent or [null]). *)
Inductive Response : Type :=
| Rejected (message : string)
| Json (data : option (list Artwork)).

Definition emptyBatchMessage : string :=
  "No artworks found. Please try again.".

Definition emptyAfterFilterMessage : string :=
  "No artworks found that match your criteria. Try removing some items from your ban list.".

(** The message of the TypeError raised by reading [.id] of [undefined];
    its wording is the engine's. *)
Definition undefinedReadMessage : string :=
  "Cannot read properties of undefined (reading 'id')".

(** The end of the [try] block: it runs to its end or returns, or it
    throws. *)
Inductive Completion : Type :=
| Normal (s : State)
| Throw (message : string) (s : State).

(** The two statements before [try]. *)
Definition fetchBegin (s : State) : State :=
  setError None (setLoading true s).

(** The [try] block from the point where the fetch has settled;
    [captured] is the [banList] of the render whose closure runs. *)
Definition tryBlock (captured : list string) (resp : Response) (r : Q)
    (s : State) : Completion :=
  match resp with
  | Rejected message => Throw message s
  | Json (Some ((_ :: _) as data)) =>
      let filtered := filteredArtworks captured data in
      if Nat.eqb (List.length filtered) 0
      then Normal (setLoading false (setError (Some emptyAfterFilterMessage) s))
      else match randomArtwork r filtered with
           | Some a => Normal (setItem (Some (newItem a)) s)
           | None => Throw undefinedReadMessage s
           end
  | Json _ => Normal (setError (Some emptyBatchMessage) s)
  end.

(** [catch] and [finally]. *)
Definition fetchSettle (captured : list string) (resp : Response) (r : Q)
    (s : State) : State :=
  let s' :=
    match tryBlock captured resp r s with
    | Normal s1 => s1
    | Throw message s1 => setError (Some ("Error fetching artwork: " ++ message)%string) s1
    end in
  setLoading false s'.

(** A refresh during which nothing else happens. *)
Definition fetchRandomArtwork (resp : Response) (r : Q) (s : State) : State :=
  fetchSettle (banList s) resp r (fetchBegin s).

(** The four ways a refresh can end. *)
Inductive Outcome : Type :=
| Selected (a : Artwork)
| EmptyBatch
| EmptyAfterFilter
| FetchError (message : string).

Definition outcome (captured : list string) (resp : Response) (r : Q) : Outcome :=
  match resp with
  | Rejected message => FetchError message
  | Json (Some ((_ :: _) as data)) =>
      let filtered := filteredArtworks captured data in
      if Nat.eqb (List.length filtered) 0 then EmptyAfterFilter
      else match randomArtwork r filtered with
           | Some a => Selected a
           | None => FetchError undefinedReadMessage
           end
  | Json _ => EmptyBatch
  end.

Definition is_error (o : Outcome) : bool :=
  match o with
  | Selected _ => false
  | _ => true
  end.

(** ** The application as a transition system

    A configuration is the component state together with the refreshes
    in flight, each remembered by the ban list its closure captured. *)
Record Config : Type := mkConfig {
  app : State;
  pending : list (list string)
}.

(** After the first render the mount effect has called
    [fetchRandomArtwork]. *)
Definition mounted : Config :=
  {| app := fetchBegin initialState; pending := [banList initialState] |}.

Definition valid_draw (r : Q) : Prop := (0 <= r)%Q /\ (r < 1)%Q.

Inductive step : Config -> Config -> Prop :=
| step_discover : forall s p,
    loading s = false ->
    step (mkConfig s p) (mkConfig (fetchBegin s) (p ++ [banList s]))
| step_settle : forall s p1 captured p2 resp r,
    valid_draw r ->
    step (mkConfig s (p1 ++ captured :: p2))
         (mkConfig (fetchSettle captured resp r s) (p1 ++ p2))
| step_attribute : forall s p c it,
    displayed s = Some it ->
    step (mkConfig s p) (mkConfig (clickAttribute c it s) p)
| step_ban_entry : forall s p bv,
    In bv (banList s) ->
    step (mkConfig s p) (mkConfig (clickBanEntry bv s) p).

Inductive reachable : Config -> Prop :=
| reachable_mounted : reachable mounted
| reachable_step : forall c c', reachable c -> step c c' -> reachable c'.

(** The item has, in some category, the value of an entry of the list. *)
Definition matchesBan (it : Item) (l : list string) : bool :=
  existsb (fun c => match item_field c it with
                    | JS.Str v => JS.includes l (entry c v)
                    | _ => false
                    end)
          [CArtist; CStyle; CPlace].

(** An entry as the toggle stores it from the interface: a category and
    a non-empty value. *)
Definition wf_entry (e : string) : Prop :=
  exists c v, v <> "" /\ e = entry c v.

Definition wf_list (l : list string) : Prop := Forall wf_entry l.

(** States obtained from the initial one by calls of the toggle alone. *)
Inductive toggled : State -> Prop :=
| toggled_initial : toggled initialState
| toggled_step : forall s type value,
    toggled s -> toggled (handleBanToggle type value s).

(** ** The selector in binary64 arithmetic

    [Math.random()] returns a Number, that is a binary64 value in
    [0, 1); its product with the array length is rounded to the nearest
    binary64 value, ties to even, and [Math.floor] is applied to the
    rounded product.  Every finite binary64 value is an integer multiple
    of 2^-1074: a non-negative value [d] is represented here by the
    integer [d * 2^1074]. *)
Module Binary64.

Definition scale : Z := (2 ^ 1074)%Z.

(** A significand of at most 53 bits. *)
Definition representable (D : Z) : Prop :=
  exists m j, (0 <= j)%Z /\ (0 <= m < 2 ^ 53)%Z /\ D = (m * 2 ^ j)%Z.

(** Rounding of a non-negative multiple of 2^-1074 to 53 significant
    bits, to nearest and ties to even.  Below 2^53 units every multiple
    is a binary64 value; from there on the value is in the normal range
    and [j] is the weight of the last kept bit. *)
Definition round53 (X : Z) : Z :=
  if (X <? 2 ^ 53)%Z then X
  else
    let j := (Z.log2 X - 52)%Z in
    let q := (X / 2 ^ j)%Z in
    let rem := (X mod 2 ^ j)%Z in
    let half := (2 ^ (j - 1))%Z in
    let m := if (rem <? half)%Z then q
             else if (half <? rem)%Z then (q + 1)%Z
             else if Z.even q then q else (q + 1)%Z in
    (m * 2 ^ j)%Z.

(** A value [Math.random()] can return. *)
Definition unit_draw (R : Z) : Prop :=
  (0 <= R < scale)%Z /\ representable R.

(** [r * length]: an array length is an integer below 2^32, itself a
    binary64 value, so the exact product is [R * n] units. *)
Definition mul_nat (R : Z) (n : nat) : Z := round53 (R * Z.of_nat n).

(** [Math.floor] of a non-negative value. *)
Definition floor (D : Z) : Z := (D / scale)%Z.

End Binary64.

(** [Math.floor(Math.random() * length)] on binary64 values. *)
Definition randomIndex64 (R : Z) (len : nat) : Z :=
  Binary64.floor (Binary64.mul_nat R len).

(** [filteredArtworks[randomIndex]] with that index. *)
Definition randomArtwork64 (R : Z) (filtered : list Artwork) : option Artwork :=
  let i := randomIndex64 R (List.length filtered) in
  if (i <? 0)%Z then None else nth_error filtered (Z.to_nat i).

(** The binary64 value nearest to 0.7, 6305039478318694 * 2^-53. *)
Definition sevenTenths : Z := (6305039478318694 * 2 ^ 1021)%Z.

(** ** What the markup derives from the state *)

(** The test behind the class of an attribute span:
    [banList.includes(`artist:${item.artist}`)]. *)
Definition attributeBanned (c : Category) (it : Item) (l : list string) : bool :=
  JS.includes l (banValue (category_name c) (item_field c it)).

(** The text of an attribute span: [item.artist || 'Unknown']. *)
Definition attributeLabel (c : Category) (it : Item) : string :=
  if JS.truthy (item_field c it) then JS.toString (item_field c it)
  else "Unknown".

(** ** Sample records and runs *)

Definition monet : Artwork :=
  {| id := 1; title := JS.Str "Water Lilies"; artist_title := JS.Str "Monet";
     date_display := JS.Str "1906"; image_id := JS.Str "x";
     style_title := JS.Str "Impressionism"; place_of_origin := JS.Str "France";
     medium_display := JS.Str "Oil on canvas" |}.

Definition degas : Artwork :=
  {| id := 2; title := JS.Str "The Star"; artist_title := JS.Str "Degas";
     date_display := JS.Null; image_id := JS.Str "y";
     style_title := JS.Null; place_of_origin := JS.Str "France";
     medium_display := JS.Undefined |}.

Definition imageless : Artwork :=
  {| id := 1; title := JS.Null; artist_title := JS.Null;
     date_display := JS.Null; image_id := JS.Null;
     style_title := JS.Null; place_of_origin := JS.Null;
     medium_display := JS.Null |}.

(** A record whose artist holds a colon, and one named by the part
    before that colon. *)
Definition rubensWorkshop : Artwork :=
  {| id := 3; title := JS.Str "Holy Family"; artist_title := JS.Str "Workshop: Rubens";
     date_display := JS.Null; image_id := JS.Str "z";
     style_title := JS.Null; place_of_origin := JS.Str "Flanders";
     medium_display := JS.Null |}.

Definition workshop : Artwork :=
  {| id := 4; title := JS.Str "Untitled"; artist_title := JS.Str "Workshop";
     date_display := JS.Null; image_id := JS.Str "w";
     style_title := JS.Null; place_of_origin := JS.Null;
     medium_display := JS.Null |}.

(** The mount refresh shows [monet]; then its artist is clicked. *)
Definition monetShown : State :=
  fetchSettle [] (Json (Some [monet])) 0 (fetchBegin initialState).

Definition monetBanned : Config :=
  {| app := clickAttribute CArtist (newItem monet) monetShown; pending := [] |}.

(** Discover is clicked once [monet]'s artist is banned: the refresh in
    flight has captured the ban list that holds that entry. *)
Definition monetRefreshing : Config :=
  {| app := fetchBegin (app monetBanned);
     pending := [] ++ [banList (app monetBanned)] |}.

(** A refresh begun with one entry in the ban list; while it is in
    flight the row of that entry is clicked; then the fetch settles. *)
Definition rubensBanned : State :=
  clickAttribute CArtist (newItem rubensWorkshop)
    (fetchSettle [] (Json (Some [rubensWorkshop])) 0 (fetchBegin initialState)).

Definition staleSettled : State :=
  fetchSettle (banList rubensBanned) (Json (Some [workshop])) 0
    (clickBanEntry "artist:Workshop: Rubens" (fetchBegin rubensBanned)).

(** * Properties *)

(** ** Strings and arrays *)

Lemma truthy_Str : forall v,
  JS.truthy v = true <-> exists s, v = JS.Str s /\ s <> "".
Proof.
  intros v; split.
  - destruct v as [| |s]; simpl; try discriminate.
    intros H; exists s; split; [reflexivity|].
    intros ->; discriminate.
  - intros (s & -> & Hs); simpl.
    destruct (String.eqb_spec s ""); [contradiction|reflexivity].
Qed.

Lemma includes_In : forall l x, JS.includes l x = true <-> In x l.
Proof.
  intros l x; unfold JS.includes; rewrite existsb_exists; split.
  - intros (y & Hy & E); apply String.eqb_eq in E; subst; assumption.
  - intros H; exists x; split; [assumption|apply String.eqb_refl].
Qed.

Lemma includes_not_In : forall l x, JS.includes l x = false <-> ~ In x l.
Proof.
  intros l x; rewrite <- includes_In.
  destruct (JS.includes l x); split; intros H;
    try reflexivity; try discriminate; try (intros E; discriminate).
  exfalso; apply H; reflexivity.
Qed.

Lemma entry_inj : forall c c' v v',
  entry c v = entry c' v' -> c = c' /\ v = v'.
Proof.
  intros c c' v v' H; unfold entry, banValue in H.
  destruct c, c'; simpl in H; inversion H; split; reflexivity.
Qed.

(** ** The ban filter *)

Lemma banned_false : forall l type v,
  banned l type v = false ->
  forall s, v = JS.Str s -> s <> "" -> ~ In (banValue type v) l.
Proof.
  intros l type v H s -> Hs; unfold banned in H.
  assert (T : JS.truthy (JS.Str s) = true) by (apply truthy_Str; eauto).
  rewrite T in H; simpl in H.
  apply includes_not_In; assumption.
Qed.

Lemma keepArtwork_true : forall l a,
  keepArtwork l a = true ->
  JS.truthy (image_id a) = true /\
  forall c, banned l (category_name c) (artwork_field c a) = false.
Proof.
  intros l a; unfold keepArtwork.
  destruct (JS.truthy (image_id a)); simpl; [|discriminate].
  destruct (banned l "artist" (artist_title a)) eqn:Ea; [discriminate|].
  destruct (banned l "style" (style_title a)) eqn:Es; [discriminate|].
  destruct (banned l "place" (place_of_origin a)) eqn:Ep; [discriminate|].
  intros _; split; [reflexivity|].
  intros []; assumption.
Qed.

(** An attribute whose text is the empty string is never looked up, so
    an array holding the bare prefix ["artist:"] excludes nothing; the
    toggle never stores such a string (see [wf_entry] below). *)
Lemma empty_text_is_not_looked_up : forall l a,
  JS.truthy (image_id a) = true ->
  artist_title a = JS.Str "" -> style_title a = JS.Str "" ->
  place_of_origin a = JS.Str "" ->
  keepArtwork l a = true.
Proof.
  intros l a Hi Ha Hs Hp; unfold keepArtwork, banned.
  rewrite Hi, Ha, Hs, Hp; reflexivity.
Qed.

Lemma keepArtwork_sound : forall banList a,
  keepArtwork banList a = true ->
  (exists img, image_id a = JS.Str img /\ img <> "") /\
  forall c v, v <> "" -> In (entry c v) banList -> artwork_field c a <> JS.Str v.
Proof.
  intros l a Hk.
  apply keepArtwork_true in Hk; destruct Hk as [Himg Hban].
  split; [apply truthy_Str; assumption|].
  intros c v Hv He Hf.
  apply (banned_false _ _ _ (Hban c) v Hf Hv).
  rewrite Hf; exact He.
Qed.

(** C1. Every record that the ban filter lets through comes from the
    batch, carries a non-empty image reference, and for each of the
    three categories its value differs from the value of every ban entry
    of that category in the ban list (a ban entry carries a non-empty
    value). *)
Theorem filteredArtworks_sound : forall banList data a,
  In a (filteredArtworks banList data) ->
  In a data /\
  (exists img, image_id a = JS.Str img /\ img <> "") /\
  forall c v, v <> "" -> In (entry c v) banList -> artwork_field c a <> JS.Str v.
Proof.
  intros l data a H; unfold filteredArtworks in H.
  apply filter_In in H; destruct H as [Hin Hk].
  split; [assumption|].
  apply keepArtwork_sound; assumption.
Qed.

Example filter_scenario_monet :
  filteredArtworks ["artist:Monet"] [monet; degas] = [degas].
Proof. reflexivity. Qed.

Example filter_scenario_imageless : forall l,
  filteredArtworks l [imageless] = [].
Proof. reflexivity. Qed.

Lemma filteredArtworks_sound_witness :
  In degas (filteredArtworks ["artist:Monet"] [monet; degas]) /\
  (In degas [monet; degas] /\
   (exists img, image_id degas = JS.Str img /\ img <> "") /\
   forall c v, v <> "" -> In (entry c v) ["artist:Monet"] ->
               artwork_field c degas <> JS.Str v).
Proof.
  assert (H : In degas (filteredArtworks ["artist:Monet"] [monet; degas]))
    by (simpl; left; reflexivity).
  split; [exact H|].
  exact (filteredArtworks_sound ["artist:Monet"] [monet; degas] degas H).
Defined.

(** ** The ban-list store *)

Section Remove.

Variable x : string.

Let others (l : list string) : list string :=
  filter (fun it => negb (String.eqb it x)) l.

Lemma In_others : forall l y, In y (others l) <-> In y l /\ y <> x.
Proof.
  intros l y; unfold others; rewrite filter_In.
  destruct (String.eqb_spec y x) as [E|E]; simpl; split;
    intros [H1 H2]; split; auto; try discriminate; try contradiction.
Qed.

Lemma others_absent : forall l, ~ In x l -> others l = l.
Proof.
  induction l as [|y l IH]; intros H; simpl; [reflexivity|].
  destruct (String.eqb_spec y x) as [E|E]; simpl.
  - exfalso; apply H; left; assumption.
  - f_equal; apply IH; intros Hin; apply H; right; assumption.
Qed.

Lemma others_app : forall l1 l2, others (l1 ++ l2) = others l1 ++ others l2.
Proof. intros; apply filter_app. Qed.

Lemma others_self : others [x] = [].
Proof. simpl; rewrite String.eqb_refl; reflexivity. Qed.

Lemma others_length : forall l, List.length (others l) <= List.length l.
Proof. intros; apply filter_length_le. Qed.

Lemma others_NoDup : forall l, NoDup l -> NoDup (others l).
Proof. intros; apply NoDup_filter; assumption. Qed.

Lemma others_Permutation : forall l,
  NoDup l -> In x l -> Permutation l (others l ++ [x]).
Proof.
  induction l as [|y l IH]; intros Hnd Hin; [destruct Hin|].
  inversion Hnd as [|? ? Hy Hl]; subst; simpl.
  destruct (String.eqb_spec y x) as [E|E]; simpl.
  - subst y. fold (others l). rewrite (others_absent l Hy).
    apply Permutation_cons_append.
  - destruct Hin as [Hin|Hin]; [contradiction|].
    apply perm_skip; apply IH; assumption.
Qed.

Lemma others_length_NoDup : forall l,
  NoDup l -> In x l -> List.length l = S (List.length (others l)).
Proof.
  intros l Hnd Hin.
  rewrite (Permutation_length (others_Permutation l Hnd Hin)).
  rewrite length_app; simpl; lia.
Qed.

End Remove.

Lemma toggleList_falsy : forall type value l,
  JS.truthy value = false -> toggleList type value l = l.
Proof. intros type value l H; unfold toggleList; rewrite H; reflexivity. Qed.

Lemma toggleList_absent : forall type value l,
  JS.truthy value = true ->
  ~ In (banValue (JS.toString type) value) l ->
  toggleList type value l = l ++ [banValue (JS.toString type) value].
Proof.
  intros type value l H Hin; unfold toggleList; rewrite H; simpl.
  apply includes_not_In in Hin; rewrite Hin; reflexivity.
Qed.

Lemma toggleList_present : forall type value l,
  JS.truthy value = true ->
  In (banValue (JS.toString type) value) l ->
  toggleList type value l =
  filter (fun it => negb (String.eqb it (banValue (JS.toString type) value))) l.
Proof.
  intros type value l H Hin; unfold toggleList; rewrite H; simpl.
  apply includes_In in Hin; rewrite Hin; reflexivity.
Qed.

Lemma handleBanToggle_banList : forall type value s,
  banList (handleBanToggle type value s) = toggleList type value (banList s).
Proof.
  intros type value s; unfold handleBanToggle, toggleList.
  destruct (negb (JS.truthy value)); [reflexivity|].
  destruct (JS.includes (banList s) _); reflexivity.
Qed.

Lemma handleBanToggle_frame : forall type value s,
  item (handleBanToggle type value s) = item s /\
  loading (handleBanToggle type value s) = loading s /\
  error (handleBanToggle type value s) = error s.
Proof.
  intros type value s; unfold handleBanToggle.
  destruct (negb (JS.truthy value)); [auto|].
  destruct (JS.includes (banList s) _); simpl; auto.
Qed.

(** What one toggle does to the list, case by case. *)
Lemma toggleList_cases : forall type value l,
  let bv := banValue (JS.toString type) value in
  (JS.truthy value = false /\ toggleList type value l = l) \/
  (JS.truthy value = true /\ ~ In bv l /\ toggleList type value l = l ++ [bv]) \/
  (JS.truthy value = true /\ In bv l /\
   toggleList type value l = filter (fun it => negb (String.eqb it bv)) l).
Proof.
  intros type value l bv.
  destruct (JS.truthy value) eqn:T.
  - destruct (in_dec string_dec bv l) as [Hin|Hin].
    + right; right; repeat split; [assumption|].
      apply toggleList_present; assumption.
    + right; left; repeat split; [assumption|].
      apply toggleList_absent; assumption.
  - left; split; [reflexivity|apply toggleList_falsy; assumption].
Qed.

Lemma toggleList_NoDup : forall type value l,
  NoDup l -> NoDup (toggleList type value l).
Proof.
  intros type value l Hnd.
  destruct (toggleList_cases type value l) as [[_ E]|[(_ & Hin & E)|(_ & _ & E)]];
    rewrite E.
  - assumption.
  - apply NoDup_app; [assumption|repeat constructor; intros []|].
    intros y Hy [<-|[]]; contradiction.
  - apply others_NoDup; assumption.
Qed.

Lemma toggled_NoDup : forall s, toggled s -> NoDup (banList s).
Proof.
  induction 1 as [|s type value _ IH]; [constructor|].
  rewrite handleBanToggle_banList; apply toggleList_NoDup; assumption.
Qed.

Lemma toggleList_twice_absent : forall type value l,
  JS.truthy value = true ->
  ~ In (banValue (JS.toString type) value) l ->
  toggleList type value (toggleList type value l) = l.
Proof.
  intros type value l T Hin.
  rewrite (toggleList_absent type value l T Hin).
  rewrite toggleList_present;
    [|assumption|apply in_or_app; right; left; reflexivity].
  rewrite filter_app, (others_absent _ l Hin), others_self.
  apply app_nil_r.
Qed.

Lemma toggleList_twice_present : forall type value l,
  JS.truthy value = true ->
  In (banValue (JS.toString type) value) l ->
  toggleList type value (toggleList type value l) =
  filter (fun it => negb (String.eqb it (banValue (JS.toString type) value))) l
  ++ [banValue (JS.toString type) value].
Proof.
  intros type value l T Hin.
  rewrite (toggleList_present type value l T Hin).
  apply toggleList_absent; [assumption|].
  intros H; apply In_others in H; destruct H as [_ H]; apply H; reflexivity.
Qed.

Lemma toggleList_twice : forall c v B,
  v <> "" ->
  let bv := entry c v in
  let B2 := toggleList (JS.Str (category_name c)) (JS.Str v)
              (toggleList (JS.Str (category_name c)) (JS.Str v) B) in
  (forall y, In y B2 <-> In y B) /\
  (~ In bv B -> B2 = B) /\
  (In bv B -> B2 = filter (fun it => negb (String.eqb it bv)) B ++ [bv]) /\
  (NoDup B -> Permutation B B2).
Proof.
  intros c v B Hv bv B2.
  assert (T : JS.truthy (JS.Str v) = true) by (apply truthy_Str; eauto).
  assert (Habs : ~ In bv B -> B2 = B).
  { intros Hin.
    exact (toggleList_twice_absent (JS.Str (category_name c)) (JS.Str v) B T Hin). }
  assert (Hpre : In bv B ->
            B2 = filter (fun it => negb (String.eqb it bv)) B ++ [bv]).
  { intros Hin.
    exact (toggleList_twice_present (JS.Str (category_name c)) (JS.Str v) B T Hin). }
  repeat split; try assumption.
  - destruct (in_dec string_dec bv B) as [Hin|Hin].
    + rewrite (Hpre Hin); intros H; apply in_app_or in H; destruct H as [H|[<-|[]]].
      * apply In_others in H; tauto.
      * assumption.
    + rewrite (Habs Hin); trivial.
  - destruct (in_dec string_dec bv B) as [Hin|Hin].
    + rewrite (Hpre Hin); intros H; apply in_or_app.
      destruct (string_dec y bv) as [->|N]; [right; left; reflexivity|].
      left; apply In_others; tauto.
    + rewrite (Habs Hin); trivial.
  - intros Hnd; destruct (in_dec string_dec bv B) as [Hin|Hin].
    + rewrite (Hpre Hin); apply others_Permutation; assumption.
    + rewrite (Habs Hin); apply Permutation_refl.
Qed.

(** C3 as amended. For a non-empty value, toggling the same pair twice
    gives back a ban list with the same entries; it is exactly the
    original list when the pair was absent, and the original list with
    the pair moved to the end when it was present (a permutation of a
    duplicate-free list). *)
Theorem handleBanToggle_twice : forall c v s,
  v <> "" ->
  let type := JS.Str (category_name c) in
  let bv := entry c v in
  let B := banList s in
  let B2 := banList (handleBanToggle type (JS.Str v)
                       (handleBanToggle type (JS.Str v) s)) in
  (forall y, In y B2 <-> In y B) /\
  (~ In bv B -> B2 = B) /\
  (In bv B -> B2 = filter (fun it => negb (String.eqb it bv)) B ++ [bv]) /\
  (NoDup B -> Permutation B B2).
Proof.
  intros c v s Hv type bv B B2.
  unfold B2; rewrite !handleBanToggle_banList.
  exact (toggleList_twice c v (banList s) Hv).
Qed.

Lemma handleBanToggle_twice_witness :
  "Impressionism" <> "" /\
  banList (handleBanToggle (JS.Str "style") (JS.Str "Impressionism")
             (handleBanToggle (JS.Str "style") (JS.Str "Impressionism")
                initialState)) = [].
Proof.
  assert (H : "Impressionism" <> "") by discriminate.
  split; [exact H|].
  destruct (handleBanToggle_twice CStyle "Impressionism" initialState H)
    as (_ & Habs & _).
  apply Habs; simpl; intros [].
Defined.

(** The claim C3 as stated fails when the pair is present and is not the
    last entry: the second toggle appends it at the end. *)
Lemma handleBanToggle_twice_reorders :
  "Monet" <> "" /\
  banList (handleBanToggle (JS.Str (category_name CArtist)) (JS.Str "Monet")
             (handleBanToggle (JS.Str (category_name CArtist)) (JS.Str "Monet")
                (setBanList ["artist:Monet"; "style:Impressionism"] initialState)))
  <> banList (setBanList ["artist:Monet"; "style:Impressionism"] initialState).
Proof.
  split; discriminate.
Qed.

Example toggle_scenario :
  banList (handleBanToggle (JS.Str "style") (JS.Str "Impressionism") initialState)
  = ["style:Impressionism"].
Proof. reflexivity. Qed.

Example toggle_empty_value : forall type s,
  handleBanToggle type (JS.Str "") s = s.
Proof. reflexivity. Qed.

(** C7. In every state reached from the initial one by toggles the ban
    list has no duplicate entry, and one more toggle either leaves the
    list as it is, or appends one entry that was not present, or removes
    exactly one entry. *)
Theorem toggled_unique_and_one_step : forall s,
  toggled s ->
  NoDup (banList s) /\
  forall type value,
    let bv := banValue (JS.toString type) value in
    let B := banList s in
    let B' := banList (handleBanToggle type value s) in
    NoDup B' /\
    (B' = B \/
     (~ In bv B /\ B' = B ++ [bv] /\ List.length B' = S (List.length B)) \/
     (In bv B /\ ~ In bv B' /\ S (List.length B') = List.length B /\
      forall y, y <> bv -> (In y B' <-> In y B))).
Proof.
  intros s Hs; pose proof (toggled_NoDup s Hs) as Hnd.
  split; [assumption|].
  intros type value bv B B'; subst B B'.
  rewrite handleBanToggle_banList.
  split; [apply toggleList_NoDup; assumption|].
  destruct (toggleList_cases type value (banList s))
    as [[_ E]|[(_ & Hin & E)|(_ & Hin & E)]]; rewrite E.
  - left; reflexivity.
  - right; left; repeat split; [assumption|].
    rewrite length_app; simpl; rewrite Nat.add_1_r; reflexivity.
  - right; right; fold bv; fold bv in Hin.
    split; [assumption|]. split; [|split].
    + intros H; apply In_others in H; destruct H as [_ H]; apply H; reflexivity.
    + symmetry; apply others_length_NoDup; assumption.
    + intros y Hy; rewrite In_others; tauto.
Qed.

Lemma toggled_unique_and_one_step_witness :
  toggled (handleBanToggle (JS.Str "artist") (JS.Str "Monet") initialState) /\
  NoDup (banList (handleBanToggle (JS.Str "artist") (JS.Str "Monet") initialState)).
Proof.
  assert (H : toggled (handleBanToggle (JS.Str "artist") (JS.Str "Monet")
                         initialState))
    by (apply toggled_step; apply toggled_initial).
  split; [exact H|].
  exact (proj1 (toggled_unique_and_one_step _ H)).
Defined.

(** ** Splitting a stored entry *)

Section Split.

Variable sep : ascii.

Lemma split_not_nil : forall s, JS.split sep s <> [].
Proof.
  induction s as [|ch rest IH]; simpl; [discriminate|].
  destruct (Ascii.eqb ch sep); [discriminate|].
  destruct (JS.split sep rest); discriminate.
Qed.

Lemma split_without_sep : forall s,
  JS.contains sep s = false -> JS.split sep s = [s].
Proof.
  induction s as [|ch rest IH]; simpl; [reflexivity|].
  destruct (Ascii.eqb ch sep); simpl; [discriminate|].
  intros H; rewrite (IH H); reflexivity.
Qed.

Lemma split_at_first_sep : forall p q,
  JS.contains sep p = false ->
  JS.split sep (p ++ String sep q)%string = p :: JS.split sep q.
Proof.
  induction p as [|ch rest IH]; simpl; intros q H.
  - rewrite Ascii.eqb_refl; reflexivity.
  - destruct (Ascii.eqb ch sep); simpl in H; [discriminate|].
    rewrite (IH q H); reflexivity.
Qed.

Lemma contains_first_sep : forall s,
  JS.contains sep s = true ->
  exists p q, s = (p ++ String sep q)%string /\ JS.contains sep p = false.
Proof.
  induction s as [|ch rest IH]; simpl; [discriminate|].
  destruct (Ascii.eqb_spec ch sep) as [E|E]; simpl.
  - intros _; exists "", rest; subst; split; reflexivity.
  - intros H; destruct (IH H) as (p & q & -> & Hp).
    exists (String ch p), q; split; [reflexivity|].
    simpl; destruct (Ascii.eqb_spec ch sep); [contradiction|assumption].
Qed.

End Split.

Lemma split_entry : forall c v,
  JS.split colon (entry c v) = category_name c :: JS.split colon v.
Proof.
  intros c v; unfold entry, banValue.
  change (JS.split colon (category_name c ++ String colon v)%string
          = category_name c :: JS.split colon v).
  apply split_at_first_sep; destruct c; reflexivity.
Qed.

Lemma getBanType_entry : forall c v,
  getBanType (entry c v) = JS.Str (category_name c).
Proof.
  intros c v; unfold getBanType; rewrite split_entry.
  destruct (JS.split colon v) eqn:E; [|reflexivity].
  exfalso; exact (split_not_nil colon v E).
Qed.

Lemma getDisplayValue_entry : forall c v,
  exists p ps, JS.split colon v = p :: ps /\
               getDisplayValue (entry c v) = JS.Str p.
Proof.
  intros c v; unfold getDisplayValue; rewrite split_entry.
  destruct (JS.split colon v) as [|p ps] eqn:E.
  - exfalso; exact (split_not_nil colon v E).
  - exists p, ps; split; reflexivity.
Qed.

(** C9. For a stored entry of a category and a non-empty value: when the
    value has no colon, the row's click handler recovers the category
    and the value, calls the toggle with that pair and the entry is gone
    from the ban list; when the value has a colon, the handler recovers
    only the part of the value before its first colon, calls the toggle
    with that different pair, and the entry stays in the ban list. *)
Theorem clickBanEntry_entry : forall c v s,
  v <> "" ->
  In (entry c v) (banList s) ->
  (JS.contains colon v = false ->
     getBanType (entry c v) = JS.Str (category_name c) /\
     getDisplayValue (entry c v) = JS.Str v /\
     clickBanEntry (entry c v) s
       = handleBanToggle (JS.Str (category_name c)) (JS.Str v) s /\
     ~ In (entry c v) (banList (clickBanEntry (entry c v) s)))
  /\
  (JS.contains colon v = true ->
     exists p q,
       v = (p ++ ":" ++ q)%string /\ JS.contains colon p = false /\
       getBanType (entry c v) = JS.Str (category_name c) /\
       getDisplayValue (entry c v) = JS.Str p /\
       p <> v /\
       clickBanEntry (entry c v) s
         = handleBanToggle (JS.Str (category_name c)) (JS.Str p) s /\
       In (entry c v) (banList (clickBanEntry (entry c v) s))).
Proof.
  intros c v s Hv Hin.
  assert (T : JS.truthy (JS.Str v) = true) by (apply truthy_Str; eauto).
  split; intros Hc.
  - assert (D : getDisplayValue (entry c v) = JS.Str v).
    { unfold getDisplayValue.
      rewrite split_entry, (split_without_sep colon v Hc); reflexivity. }
    unfold clickBanEntry; rewrite getBanType_entry, D.
    repeat split.
    rewrite handleBanToggle_banList.
    rewrite (toggleList_present (JS.Str (category_name c)) (JS.Str v) _ T Hin).
    intros H; apply In_others in H; destruct H as [_ H]; apply H; reflexivity.
  - destruct (contains_first_sep colon v Hc) as (p & q & E & Hp).
    assert (N : p <> v).
    { intros <-; rewrite Hp in Hc; discriminate. }
    assert (D : getDisplayValue (entry c v) = JS.Str p).
    { unfold getDisplayValue; rewrite split_entry, E.
      rewrite (split_at_first_sep colon p q Hp).
      destruct (JS.split colon q) eqn:Eq; [|reflexivity].
      exfalso; exact (split_not_nil colon q Eq). }
    exists p, q; unfold clickBanEntry; rewrite getBanType_entry, D.
    repeat split; try assumption.
    rewrite handleBanToggle_banList.
    destruct (toggleList_cases (JS.Str (category_name c)) (JS.Str p) (banList s))
      as [[_ R]|[(_ & _ & R)|(_ & _ & R)]]; rewrite R.
    + assumption.
    + apply in_or_app; left; assumption.
    + apply In_others; split; [assumption|].
      intros H; apply (entry_inj c c v p) in H; destruct H as [_ H].
      apply N; symmetry; assumption.
Qed.

Lemma clickBanEntry_entry_witness :
  "Monet" <> "" /\
  In (entry CArtist "Monet")
     (banList (setBanList ["style:Impressionism"; "artist:Monet"] initialState)) /\
  ~ In (entry CArtist "Monet")
       (banList (clickBanEntry (entry CArtist "Monet")
                   (setBanList ["style:Impressionism"; "artist:Monet"] initialState))).
Proof.
  assert (Hv : "Monet" <> "") by discriminate.
  assert (Hin : In (entry CArtist "Monet")
                   (banList (setBanList ["style:Impressionism"; "artist:Monet"]
                               initialState)))
    by (simpl; right; left; reflexivity).
  split; [exact Hv|]; split; [exact Hin|].
  destruct (clickBanEntry_entry CArtist "Monet" _ Hv Hin) as [H _].
  destruct (H eq_refl) as (_ & _ & _ & Hout); exact Hout.
Defined.

Example clickBanEntry_colon_value :
  banList (clickBanEntry "artist:Workshop: Rubens"
             (setBanList ["artist:Workshop: Rubens"] initialState))
  = ["artist:Workshop: Rubens"; "artist:Workshop"].
Proof. reflexivity. Qed.

(** ** The selector *)

Lemma randomIndex_range : forall r n,
  valid_draw r -> 0 < n ->
  (0 <= randomIndex r n < Z.of_nat n)%Z.
Proof.
  intros r n [H0 H1] Hn; unfold randomIndex.
  assert (Hpos : (0 < inject_Z (Z.of_nat n))%Q).
  { change 0%Q with (inject_Z 0); rewrite <- Zlt_Qlt; lia. }
  split.
  - change 0%Z with (Qfloor 0); apply Qfloor_resp_le.
    apply Qmult_le_0_compat; [assumption|apply Qlt_le_weak; assumption].
  - rewrite Zlt_Qlt.
    apply Qle_lt_trans with (y := (r * inject_Z (Z.of_nat n))%Q);
      [apply Qfloor_le|].
    rewrite <- (Qmult_1_l (inject_Z (Z.of_nat n))) at 2.
    apply Qmult_lt_compat_r; assumption.
Qed.

Lemma randomArtwork_in_range : forall r filtered,
  valid_draw r -> filtered <> [] ->
  exists a, randomArtwork r filtered = Some a /\ In a filtered.
Proof.
  intros r filtered Hr Hne; unfold randomArtwork.
  assert (Hlen : 0 < List.length filtered)
    by (destruct filtered; [contradiction|simpl; lia]).
  destruct (randomIndex_range r _ Hr Hlen) as [Hlo Hhi].
  destruct (Z.ltb_spec (randomIndex r (List.length filtered)) 0) as [L|_]; [lia|].
  destruct (nth_error filtered (Z.to_nat (randomIndex r (List.length filtered))))
    as [a|] eqn:E.
  - exists a; split; [reflexivity|]; eapply nth_error_In; eassumption.
  - apply nth_error_None in E; lia.
Qed.

(** C8. On a filtered batch of exactly one record, every draw in [0, 1)
    gives index 0 and the selector returns that record. *)
Theorem randomArtwork_singleton : forall r filtered,
  valid_draw r -> List.length filtered = 1 ->
  randomIndex r (List.length filtered) = 0%Z /\
  exists a, filtered = [a] /\ randomArtwork r filtered = Some a.
Proof.
  intros r filtered Hr Hlen.
  destruct filtered as [|a [|b rest]]; simpl in Hlen; try discriminate.
  assert (I : randomIndex r 1 = 0%Z).
  { pose proof (randomIndex_range r 1 Hr (Nat.lt_0_succ 0)); lia. }
  split; [exact I|].
  exists a; split; [reflexivity|].
  unfold randomArtwork; simpl List.length; rewrite I; reflexivity.
Qed.

Lemma randomArtwork_singleton_witness :
  valid_draw (3 # 4) /\ List.length [degas] = 1 /\
  randomArtwork (3 # 4) [degas] = Some degas.
Proof.
  assert (Hr : valid_draw (3 # 4))
    by (split; unfold Qle, Qlt; simpl; lia).
  split; [exact Hr|]; split; [reflexivity|].
  destruct (randomArtwork_singleton (3 # 4) [degas] Hr eq_refl)
    as (_ & a & E & Ha).
  injection E as <-; exact Ha.
Defined.

(** ** Refresh *)

(** The state a settled refresh leaves, by outcome. *)
Lemma fetchSettle_outcome : forall captured resp r s,
  fetchSettle captured resp r s =
  match outcome captured resp r with
  | Selected a =>
      {| item := Some (newItem a); loading := false;
         error := error s; banList := banList s |}
  | EmptyBatch =>
      {| item := item s; loading := false;
         error := Some emptyBatchMessage; banList := banList s |}
  | EmptyAfterFilter =>
      {| item := item s; loading := false;
         error := Some emptyAfterFilterMessage; banList := banList s |}
  | FetchError message =>
      {| item := item s; loading := false;
         error := Some ("Error fetching artwork: " ++ message)%string;
         banList := banList s |}
  end.
Proof.
  intros captured resp r s; unfold fetchSettle, tryBlock, outcome.
  destruct resp as [message|[[|a data]|]]; try reflexivity.
  destruct (Nat.eqb (List.length (filteredArtworks captured (a :: data))) 0);
    [reflexivity|].
  destruct (randomArtwork r (filteredArtworks captured (a :: data))); reflexivity.
Qed.

Lemma outcome_Selected : forall captured resp r a,
  outcome captured resp r = Selected a ->
  exists data, resp = Json (Some data) /\ In a (filteredArtworks captured data).
Proof.
  intros captured resp r a; unfold outcome.
  destruct resp as [message|[[|x data]|]]; try discriminate.
  destruct (Nat.eqb (List.length (filteredArtworks captured (x :: data))) 0);
    [discriminate|].
  unfold randomArtwork.
  destruct (Z.ltb _ 0); [discriminate|].
  destruct (nth_error _ _) as [b|] eqn:E; [|discriminate].
  intros H; injection H as ->.
  exists (x :: data); split; [reflexivity|].
  eapply nth_error_In; eassumption.
Qed.

(** With a draw in [0, 1) the index is in range, so a batch that
    survives the filter always yields a record. *)
Lemma outcome_nonempty_filtered : forall captured data r,
  valid_draw r -> filteredArtworks captured data <> [] ->
  exists a, outcome captured (Json (Some data)) r = Selected a.
Proof.
  intros captured data r Hr Hne; unfold outcome.
  destruct data as [|x data]; [contradiction Hne; reflexivity|].
  destruct (filteredArtworks captured (x :: data)) as [|y l] eqn:E;
    [contradiction Hne; reflexivity|].
  simpl Nat.eqb; cbv iota.
  destruct (randomArtwork_in_range r (y :: l) Hr) as (a & Ha & _);
    [discriminate|].
  rewrite Ha; exists a; reflexivity.
Qed.

Lemma fetchBegin_frame : forall s,
  item (fetchBegin s) = item s /\ banList (fetchBegin s) = banList s /\
  loading (fetchBegin s) = true /\ error (fetchBegin s) = None.
Proof. intros s; repeat split. Qed.

Lemma fetchSettle_banList : forall captured resp r s,
  banList (fetchSettle captured resp r s) = banList s.
Proof.
  intros; rewrite fetchSettle_outcome.
  destruct (outcome captured resp r); reflexivity.
Qed.

(** C4. When the fetch succeeds there are two distinct empty outcomes: a
    missing or empty [data] array gives the "no artworks found, try
    again" message, while a non-empty array whose records are all
    removed by the ban filter gives the message about the ban list, and
    the two messages differ. *)
Theorem empty_outcomes_distinguished : forall captured r s,
  (forall data, data = None \/ data = Some [] ->
     outcome captured (Json data) r = EmptyBatch /\
     error (fetchSettle captured (Json data) r s) = Some emptyBatchMessage) /\
  (forall data, data <> [] -> filteredArtworks captured data = [] ->
     outcome captured (Json (Some data)) r = EmptyAfterFilter /\
     error (fetchSettle captured (Json (Some data)) r s)
       = Some emptyAfterFilterMessage) /\
  emptyAfterFilterMessage <> emptyBatchMessage.
Proof.
  intros captured r s; split; [|split].
  - intros data [-> | ->]; split; reflexivity.
  - intros data Hne Hf.
    assert (O : outcome captured (Json (Some data)) r = EmptyAfterFilter).
    { unfold outcome; destruct data as [|x data]; [contradiction|].
      rewrite Hf; reflexivity. }
    split; [exact O|].
    rewrite fetchSettle_outcome, O; reflexivity.
  - discriminate.
Qed.

Example all_artists_banned : forall r s,
  error (fetchSettle ["artist:Degas"; "artist:Monet"]
           (Json (Some [monet; degas])) r s)
  = Some emptyAfterFilterMessage.
Proof. reflexivity. Qed.

(** A refresh that selects a record stores it as the current item and
    shows it. *)
Lemma fetchSettle_selected : forall captured resp r s a,
  outcome captured resp r = Selected a ->
  item (fetchSettle captured resp r s) = Some (newItem a) /\
  displayed (fetchSettle captured resp r s) = Some (newItem a).
Proof.
  intros captured resp r s a O.
  rewrite fetchSettle_outcome, O; split; reflexivity.
Qed.

(** C5. The state keeps the current item only: two refreshes that show
    one record and then another leave the same state as a single refresh
    that shows the second record, so nothing records the first. *)
Theorem refresh_keeps_no_history :
  item (fetchRandomArtwork (Json (Some [monet])) 0 initialState)
    = Some (newItem monet) /\
  fetchRandomArtwork (Json (Some [degas])) 0
    (fetchRandomArtwork (Json (Some [monet])) 0 initialState)
  = fetchRandomArtwork (Json (Some [degas])) 0 initialState.
Proof. split; reflexivity. Qed.

(** C6. A refresh that ends in an error outcome (rejected fetch, empty
    batch, or empty after filtering) leaves the item and the ban list as
    they were; only the error message and the loading flag are set. *)
Theorem fetchSettle_error_frame : forall captured resp r s,
  is_error (outcome captured resp r) = true ->
  (exists message,
     fetchSettle captured resp r s =
     {| item := item s; loading := false;
        error := Some message; banList := banList s |}) /\
  (exists message,
     fetchSettle captured resp r (fetchBegin s) =
     {| item := item s; loading := false;
        error := Some message; banList := banList s |}).
Proof.
  intros captured resp r s H.
  rewrite !fetchSettle_outcome.
  destruct (outcome captured resp r); try discriminate;
    split; eexists; reflexivity.
Qed.

Lemma fetchSettle_error_frame_witness :
  is_error (outcome ["artist:Monet"] (Rejected "Failed to fetch") 0) = true /\
  exists message,
    fetchSettle ["artist:Monet"] (Rejected "Failed to fetch") 0
      (setItem (Some (newItem degas)) (setBanList ["artist:Monet"] initialState)) =
    {| item := Some (newItem degas); loading := false;
       error := Some message; banList := ["artist:Monet"] |}.
Proof.
  split; [reflexivity|].
  exact (proj1 (fetchSettle_error_frame ["artist:Monet"]
                  (Rejected "Failed to fetch") 0
                  (setItem (Some (newItem degas))
                     (setBanList ["artist:Monet"] initialState))
                  eq_refl)).
Defined.

(** C10. Whatever path a refresh takes (selection, empty batch, empty
    after filtering, or a thrown error), once it has settled the loading
    flag is false; it was set when the refresh began. *)
Theorem fetchSettle_loading : forall captured resp r s,
  loading (fetchBegin s) = true /\
  loading (fetchSettle captured resp r s) = false /\
  loading (fetchRandomArtwork resp r s) = false.
Proof. intros captured resp r s; repeat split. Qed.

(** ** The displayed record and the ban list *)

Lemma matchesBan_false : forall it l,
  matchesBan it l = false <->
  forall c v, item_field c it = JS.Str v -> ~ In (entry c v) l.
Proof.
  intros it l; unfold matchesBan; split.
  - intros H c v Hf Hin.
    assert (E : existsb (fun c => match item_field c it with
                                  | JS.Str v => JS.includes l (entry c v)
                                  | _ => false
                                  end) [CArtist; CStyle; CPlace] = true).
    { apply existsb_exists; exists c; split.
      - destruct c; simpl; auto.
      - rewrite Hf; apply includes_In; assumption. }
    rewrite E in H; discriminate.
  - intros H.
    destruct (existsb _ _) eqn:E; [|reflexivity].
    apply existsb_exists in E; destruct E as (c & _ & Hc).
    destruct (item_field c it) as [| |v] eqn:Hf; try discriminate.
    apply includes_In in Hc; exfalso; exact (H c v Hf Hc).
Qed.

Lemma item_field_newItem : forall c a,
  item_field c (newItem a) = artwork_field c a.
Proof. intros [] a; reflexivity. Qed.

Lemma wf_list_nonempty_value : forall l c v,
  wf_list l -> In (entry c v) l -> v <> "".
Proof.
  intros l c v Hl Hin.
  unfold wf_list in Hl; rewrite Forall_forall in Hl.
  destruct (Hl _ Hin) as (c' & v' & Hv' & E).
  apply entry_inj in E; destruct E as [_ ->]; assumption.
Qed.

Lemma toggleList_wf : forall type value l,
  wf_list l ->
  (JS.truthy value = true -> wf_entry (banValue (JS.toString type) value)) ->
  wf_list (toggleList type value l).
Proof.
  intros type value l Hl He; unfold wf_list in *.
  destruct (toggleList_cases type value l)
    as [[_ E]|[(T & _ & E)|(_ & _ & E)]]; rewrite E.
  - assumption.
  - apply Forall_app; split; [assumption|].
    constructor; [apply He; assumption|constructor].
  - rewrite Forall_forall in *; intros y Hy.
    apply In_others in Hy; apply Hl; tauto.
Qed.

Lemma clickAttribute_wf : forall c it s,
  wf_list (banList s) -> wf_list (banList (clickAttribute c it s)).
Proof.
  intros c it s Hl; unfold clickAttribute.
  rewrite handleBanToggle_banList; apply toggleList_wf; [assumption|].
  intros T; apply truthy_Str in T; destruct T as (v & -> & Hv).
  exists c, v; split; [assumption|reflexivity].
Qed.

Lemma clickBanEntry_wf : forall bv s,
  wf_entry bv -> wf_list (banList s) ->
  wf_list (banList (clickBanEntry bv s)).
Proof.
  intros bv s (c & v & _ & ->) Hl; unfold clickBanEntry.
  rewrite handleBanToggle_banList, getBanType_entry.
  destruct (getDisplayValue_entry c v) as (p & ps & _ & ->).
  apply toggleList_wf; [assumption|].
  intros T; apply truthy_Str in T; destruct T as (p' & E & Hp).
  injection E as <-.
  exists c, p; split; [assumption|reflexivity].
Qed.

(** Every ban list of a reachable configuration, current or captured by
    a refresh in flight, holds well-formed entries only. *)
Lemma reachable_wf : forall cfg,
  reachable cfg ->
  wf_list (banList (app cfg)) /\ Forall wf_list (pending cfg).
Proof.
  induction 1 as [|cfg cfg' _ [IHa IHp] Hstep].
  - split; [constructor|]. repeat constructor.
  - destruct Hstep as [s p Hl|s p1 captured p2 resp r Hr|s p c it Hd|s p bv Hin];
      cbn [app pending] in *.
    + split; [assumption|].
      apply Forall_app; split; [assumption|]. constructor; [assumption|constructor].
    + rewrite fetchSettle_banList; split; [assumption|].
      apply Forall_app in IHp; destruct IHp as [H1 H2].
      apply Forall_app; split; [assumption|].
      inversion H2; assumption.
    + split; [apply clickAttribute_wf|]; assumption.
    + split; [|assumption].
      apply clickBanEntry_wf; [|assumption].
      unfold wf_list in IHa; rewrite Forall_forall in IHa; apply IHa; assumption.
Qed.

Lemma reachable_toggled : forall cfg,
  reachable cfg -> exists s, toggled s /\ banList s = banList (app cfg).
Proof.
  induction 1 as [|cfg cfg' _ (t & Ht & E) Hstep].
  - exists initialState; split; [constructor|reflexivity].
  - destruct Hstep as [s p Hl|s p1 captured p2 resp r Hr|s p c it Hd|s p bv Hin];
      cbn [app pending] in *.
    + exists t; split; assumption.
    + exists t; split; [assumption|]. rewrite fetchSettle_banList; assumption.
    + exists (handleBanToggle (JS.Str (category_name c)) (item_field c it) t).
      split; [constructor; assumption|].
      unfold clickAttribute; rewrite !handleBanToggle_banList, E; reflexivity.
    + exists (handleBanToggle (getBanType bv) (getDisplayValue bv) t).
      split; [constructor; assumption|].
      unfold clickBanEntry; rewrite !handleBanToggle_banList, E; reflexivity.
Qed.

Lemma monetBanned_reachable : reachable monetBanned.
Proof.
  apply reachable_step with (c := mkConfig monetShown []).
  - apply reachable_step with (c := mounted); [apply reachable_mounted|].
    apply (step_settle (fetchBegin initialState) [] [] [] (Json (Some [monet])) 0).
    split; [apply Qle_refl|reflexivity].
  - apply (step_attribute monetShown [] CArtist (newItem monet)); reflexivity.
Qed.

(** The claim C2 as stated fails: after a record is shown, a click on
    its artist stores the matching entry while the record stays
    displayed. *)
Lemma displayed_record_matches_ban :
  reachable monetBanned /\
  displayed (app monetBanned) = Some (newItem monet) /\
  item_field CArtist (newItem monet) = JS.Str "Monet" /\
  In (entry CArtist "Monet") (banList (app monetBanned)).
Proof.
  split; [exact monetBanned_reachable|].
  split; [reflexivity|]. split; [reflexivity|].
  left; reflexivity.
Qed.

(** C2 as amended. In a reachable configuration, when a refresh in
    flight settles with a selection, the record it displays matches no
    entry of the ban list that refresh was started with; if the current
    ban list is still that list, the displayed record matches no entry
    of the current ban list. *)
Theorem settled_selection_clean : forall cfg p1 captured p2 resp r a,
  reachable cfg ->
  pending cfg = p1 ++ captured :: p2 ->
  outcome captured resp r = Selected a ->
  let s' := fetchSettle captured resp r (app cfg) in
  displayed s' = Some (newItem a) /\
  (forall c v, item_field c (newItem a) = JS.Str v -> ~ In (entry c v) captured) /\
  (banList (app cfg) = captured ->
   forall it c v, displayed s' = Some it -> item_field c it = JS.Str v ->
                  ~ In (entry c v) (banList s')).
Proof.
  intros cfg p1 captured p2 resp r a Hreach Hp O s'.
  destruct (fetchSettle_selected captured resp r (app cfg) a O) as [_ D].
  fold s' in D.
  assert (Hwf : wf_list captured).
  { destruct (reachable_wf cfg Hreach) as [_ H]; rewrite Hp in H.
    apply Forall_app in H; destruct H as [_ H]; inversion H; assumption. }
  assert (C : forall c v, item_field c (newItem a) = JS.Str v ->
                          ~ In (entry c v) captured).
  { intros c v Hf Hin.
    destruct (outcome_Selected _ _ _ _ O) as (data & _ & Ha).
    apply filter_In in Ha; destruct Ha as [_ Hk].
    destruct (keepArtwork_sound captured a Hk) as (_ & Hclean).
    apply (Hclean c v (wf_list_nonempty_value _ _ _ Hwf Hin) Hin).
    rewrite <- item_field_newItem; assumption. }
  split; [exact D|]; split; [exact C|].
  intros E it c v Hit Hf.
  rewrite D in Hit; injection Hit as <-.
  unfold s'; rewrite fetchSettle_banList, E; apply C; assumption.
Qed.

Lemma monetRefreshing_reachable : reachable monetRefreshing.
Proof.
  apply reachable_step with (c := monetBanned); [exact monetBanned_reachable|].
  exact (step_discover (app monetBanned) [] eq_refl).
Qed.

Lemma settled_selection_clean_witness :
  reachable monetRefreshing /\
  pending monetRefreshing = [] ++ ["artist:Monet"] :: [] /\
  outcome ["artist:Monet"] (Json (Some [monet; degas])) 0 = Selected degas /\
  displayed (fetchSettle ["artist:Monet"] (Json (Some [monet; degas])) 0
               (app monetRefreshing)) = Some (newItem degas) /\
  (forall c v, item_field c (newItem degas) = JS.Str v ->
               ~ In (entry c v) ["artist:Monet"]) /\
  (forall it c v,
     displayed (fetchSettle ["artist:Monet"] (Json (Some [monet; degas])) 0
                  (app monetRefreshing)) = Some it ->
     item_field c it = JS.Str v ->
     ~ In (entry c v)
          (banList (fetchSettle ["artist:Monet"] (Json (Some [monet; degas])) 0
                      (app monetRefreshing)))).
Proof.
  split; [exact monetRefreshing_reachable|].
  split; [reflexivity|]. split; [reflexivity|].
  pose proof (settled_selection_clean monetRefreshing [] ["artist:Monet"] []
                (Json (Some [monet; degas])) 0 degas
                monetRefreshing_reachable eq_refl eq_refl) as H.
  cbv zeta in H; destruct H as (D & C & E).
  split; [exact D|]. split; [exact C|exact (E eq_refl)].
Defined.

(** In a reachable configuration the ban filter of a refresh that runs
    without interleaved toggles needs no side condition: a surviving
    record matches no entry at all. *)
Lemma reachable_filter_clean : forall cfg data a c v,
  reachable cfg ->
  In a (filteredArtworks (banList (app cfg)) data) ->
  In (entry c v) (banList (app cfg)) ->
  artwork_field c a <> JS.Str v.
Proof.
  intros cfg data a c v Hreach Ha Hin.
  destruct (reachable_wf cfg Hreach) as [Hwf _].
  apply filter_In in Ha; destruct Ha as [_ Hk].
  destruct (keepArtwork_sound _ a Hk) as (_ & Hclean).
  exact (Hclean c v (wf_list_nonempty_value _ _ _ Hwf Hin) Hin).
Qed.

(** The filter of a refresh reads the ban list its closure captured, so
    an entry stored while the fetch is in flight is not applied: the
    record then displayed matches an entry of the current ban list. *)
Example stale_ban_list_selection :
  banList staleSettled = ["artist:Workshop: Rubens"; "artist:Workshop"] /\
  displayed staleSettled = Some (newItem workshop) /\
  matchesBan (newItem workshop) (banList staleSettled) = true /\
  matchesBan (newItem workshop) (banList rubensBanned) = false.
Proof. repeat split. Qed.

(** * Further properties of the code *)

(** ** The ban filter, exactly *)

Lemma banned_false_iff : forall l type v,
  banned l type v = false <->
  (JS.truthy v = true -> ~ In (banValue type v) l).
Proof.
  intros l type v; unfold banned.
  destruct (JS.truthy v); simpl.
  - rewrite includes_not_In; tauto.
  - split; [discriminate|reflexivity].
Qed.

Lemma keepArtwork_iff : forall l a,
  keepArtwork l a = true <->
  JS.truthy (image_id a) = true /\
  forall c, banned l (category_name c) (artwork_field c a) = false.
Proof.
  intros l a; split; [apply keepArtwork_true|].
  intros [Hi Hb]; unfold keepArtwork; rewrite Hi.
  pose proof (Hb CArtist) as Ha; pose proof (Hb CStyle) as Hs;
    pose proof (Hb CPlace) as Hp.
  cbn [category_name artwork_field] in Ha, Hs, Hp.
  rewrite Ha, Hs, Hp; reflexivity.
Qed.

(** X1. A record is in the output of the ban filter exactly when it is
    in the batch, its image reference is truthy, and no attribute with a
    truthy value has its entry in the ban list: the filter drops nothing
    else. *)
Theorem filteredArtworks_exact : forall banList data a,
  In a (filteredArtworks banList data) <->
  In a data /\ JS.truthy (image_id a) = true /\
  forall c, JS.truthy (artwork_field c a) = true ->
            ~ In (banValue (category_name c) (artwork_field c a)) banList.
Proof.
  intros l data a; unfold filteredArtworks.
  rewrite filter_In, keepArtwork_iff.
  split; intros (Hin & Hi & Hb); repeat split; try assumption; intros c.
  - apply banned_false_iff, Hb.
  - apply banned_false_iff, Hb.
Qed.

(** X2. With an empty ban list the filter keeps exactly the records
    that have an image reference, in their order. *)
Theorem filteredArtworks_empty_banList : forall data,
  filteredArtworks [] data = filter (fun a => JS.truthy (image_id a)) data.
Proof.
  intros data; unfold filteredArtworks; apply filter_ext; intros a.
  unfold keepArtwork, banned; simpl.
  destruct (JS.truthy (image_id a)); simpl; [|reflexivity].
  rewrite !andb_false_r; reflexivity.
Qed.

Lemma includes_app : forall l1 l2 x,
  JS.includes (l1 ++ l2) x = JS.includes l1 x || JS.includes l2 x.
Proof. intros; unfold JS.includes; apply existsb_app. Qed.

Lemma keepArtwork_app : forall l1 l2 a,
  keepArtwork (l1 ++ l2) a = keepArtwork l1 a && keepArtwork l2 a.
Proof.
  intros l1 l2 a; unfold keepArtwork, banned; rewrite !includes_app.
  destruct (JS.truthy (image_id a)); simpl; [|reflexivity].
  destruct (JS.truthy (artist_title a)), (JS.truthy (style_title a)),
           (JS.truthy (place_of_origin a)); simpl;
    repeat match goal with
           | |- context [JS.includes ?l ?x] => destruct (JS.includes l x); simpl
           end; reflexivity.
Qed.

Lemma filter_andb : forall (A : Type) (f g : A -> bool) l,
  filter (fun x => f x && g x) l = filter f (filter g l).
Proof.
  intros A f g; induction l as [|x l IH]; simpl; [reflexivity|].
  destruct (g x); simpl.
  - destruct (f x); simpl; rewrite IH; reflexivity.
  - rewrite andb_false_r; exact IH.
Qed.

(** X3. Filtering with two ban lists joined is filtering with one and
    then with the other. *)
Theorem filteredArtworks_app : forall l1 l2 data,
  filteredArtworks (l1 ++ l2) data
  = filteredArtworks l1 (filteredArtworks l2 data).
Proof.
  intros l1 l2 data; unfold filteredArtworks.
  rewrite <- filter_andb; apply filter_ext; intros a; apply keepArtwork_app.
Qed.

(** X4. A longer ban list never lets more through: when every entry of
    one ban list is in another, every record that survives the larger
    list survives the smaller one. *)
Theorem filteredArtworks_antitone : forall l1 l2 data a,
  incl l1 l2 ->
  In a (filteredArtworks l2 data) -> In a (filteredArtworks l1 data).
Proof.
  intros l1 l2 data a Hincl; unfold filteredArtworks.
  rewrite !filter_In, !keepArtwork_iff.
  intros (Hin & Hi & Hb); repeat split; try assumption.
  intros c; apply banned_false_iff; intros T Hx.
  apply (proj1 (banned_false_iff _ _ _) (Hb c) T).
  apply Hincl; assumption.
Qed.

Lemma filteredArtworks_antitone_witness :
  incl ["artist:Monet"] ["style:Cubism"; "artist:Monet"] /\
  In degas (filteredArtworks ["artist:Monet"] [monet; degas]).
Proof.
  assert (H : incl ["artist:Monet"] ["style:Cubism"; "artist:Monet"]).
  { intros x [<-|[]]; right; left; reflexivity. }
  split; [exact H|].
  apply (filteredArtworks_antitone _ _ [monet; degas] degas H).
  simpl; left; reflexivity.
Defined.

Lemma includes_ext : forall l1 l2,
  (forall x, In x l1 <-> In x l2) ->
  forall x, JS.includes l1 x = JS.includes l2 x.
Proof.
  intros l1 l2 H x.
  destruct (JS.includes l2 x) eqn:E.
  - apply includes_In, H, includes_In; assumption.
  - apply includes_not_In; intros Hin; apply H in Hin.
    apply includes_In in Hin; rewrite Hin in E; discriminate.
Qed.

Lemma filteredArtworks_ext : forall l1 l2 data,
  (forall x, In x l1 <-> In x l2) ->
  filteredArtworks l1 data = filteredArtworks l2 data.
Proof.
  intros l1 l2 data H; unfold filteredArtworks; apply filter_ext; intros a.
  unfold keepArtwork, banned; rewrite !(includes_ext l1 l2 H); reflexivity.
Qed.

Lemma toggleList_twice_In : forall type value l y,
  In y (toggleList type value (toggleList type value l)) <-> In y l.
Proof.
  intros type value l y.
  destruct (JS.truthy value) eqn:T; [|rewrite !toggleList_falsy by assumption; tauto].
  destruct (in_dec string_dec (banValue (JS.toString type) value) l) as [Hin|Hin].
  - rewrite (toggleList_twice_present type value l T Hin), in_app_iff, In_others.
    simpl; split.
    + intros [[H _]|[<-|[]]]; assumption.
    + intros H; destruct (string_dec y (banValue (JS.toString type) value));
        [right; left; symmetry; assumption|left; split; assumption].
  - rewrite (toggleList_twice_absent type value l T Hin); tauto.
Qed.

(** X5. Banning and unbanning restores the selection pool: after two
    toggles of the same pair the ban filter gives the same result on
    every batch as before them, whatever the order of the ban list has
    become. *)
Theorem handleBanToggle_twice_filter : forall type value s data,
  filteredArtworks
    (banList (handleBanToggle type value (handleBanToggle type value s))) data
  = filteredArtworks (banList s) data.
Proof.
  intros type value s data; rewrite !handleBanToggle_banList.
  apply filteredArtworks_ext; intros x; apply toggleList_twice_In.
Qed.

(** ** One toggle, two toggles *)

Lemma toggleList_In : forall type value l y,
  JS.truthy value = true ->
  let bv := banValue (JS.toString type) value in
  In y (toggleList type value l) <->
  (y <> bv /\ In y l) \/ (y = bv /\ ~ In bv l).
Proof.
  intros type value l y T bv.
  destruct (in_dec string_dec bv l) as [Hin|Hin].
  - rewrite (toggleList_present type value l T Hin); fold bv.
    rewrite In_others; tauto.
  - rewrite (toggleList_absent type value l T Hin); fold bv.
    rewrite in_app_iff; simpl.
    destruct (string_dec y bv) as [->|N]; [tauto|].
    split; [intros [H|[H|[]]]; [tauto|congruence]|tauto].
Qed.

Lemma others_others : forall x l,
  filter (fun it => negb (String.eqb it x))
    (filter (fun it => negb (String.eqb it x)) l)
  = filter (fun it => negb (String.eqb it x)) l.
Proof.
  intros x l; induction l as [|y l IH]; simpl; [reflexivity|].
  destruct (String.eqb y x) eqn:E; simpl; [exact IH|].
  rewrite E; simpl; rewrite IH; reflexivity.
Qed.

(** X6. A toggle touches one entry only: the other entries of the ban
    list and their order are as before; for a truthy value the toggled
    entry is present afterwards exactly when it was absent before; for a
    falsy value ([undefined], [null] or the empty string) the whole
    state is unchanged. *)
Theorem handleBanToggle_one_entry : forall type value s,
  let bv := banValue (JS.toString type) value in
  let s' := handleBanToggle type value s in
  filter (fun it => negb (String.eqb it bv)) (banList s')
    = filter (fun it => negb (String.eqb it bv)) (banList s) /\
  (JS.truthy value = true -> (In bv (banList s') <-> ~ In bv (banList s))) /\
  (JS.truthy value = false -> s' = s) /\
  item s' = item s /\ loading s' = loading s /\ error s' = error s.
Proof.
  intros type value s bv s'; subst s'.
  split; [|split; [|split]].
  - rewrite handleBanToggle_banList.
    destruct (toggleList_cases type value (banList s))
      as [[_ E]|[(_ & _ & E)|(_ & _ & E)]]; rewrite E; fold bv.
    + reflexivity.
    + rewrite filter_app, others_self, app_nil_r; reflexivity.
    + apply others_others.
  - intros T; rewrite handleBanToggle_banList.
    rewrite (toggleList_In type value (banList s) bv T); fold bv; tauto.
  - intros T; unfold handleBanToggle; rewrite T; reflexivity.
  - apply handleBanToggle_frame.
Qed.

(** X7. Two toggles can be done in either order: the resulting ban
    lists hold the same entries, and are permutations of each other when
    the ban list had no duplicates. *)
Theorem handleBanToggle_commute : forall t1 v1 t2 v2 s,
  let s12 := handleBanToggle t2 v2 (handleBanToggle t1 v1 s) in
  let s21 := handleBanToggle t1 v1 (handleBanToggle t2 v2 s) in
  (forall y, In y (banList s12) <-> In y (banList s21)) /\
  (NoDup (banList s) -> Permutation (banList s12) (banList s21)).
Proof.
  intros t1 v1 t2 v2 s s12 s21; subst s12 s21.
  rewrite !handleBanToggle_banList.
  set (l := banList s).
  assert (M : forall y,
            In y (toggleList t2 v2 (toggleList t1 v1 l)) <->
            In y (toggleList t1 v1 (toggleList t2 v2 l))).
  { intros y.
    destruct (JS.truthy v1) eqn:T1; destruct (JS.truthy v2) eqn:T2;
      try (rewrite ?(toggleList_falsy t1 v1), ?(toggleList_falsy t2 v2)
             by assumption; tauto).
    repeat rewrite toggleList_In by assumption.
    set (b1 := banValue (JS.toString t1) v1).
    set (b2 := banValue (JS.toString t2) v2).
    clearbody b1 b2.
    destruct (string_dec y b1) as [E1|E1], (string_dec y b2) as [E2|E2],
             (in_dec string_dec b1 l) as [I1|I1],
             (in_dec string_dec b2 l) as [I2|I2];
      subst; try tauto; try (intuition congruence). }
  split; [exact M|].
  intros Hnd; apply NoDup_Permutation;
    [repeat apply toggleList_NoDup; assumption
    |repeat apply toggleList_NoDup; assumption
    |exact M].
Qed.

Lemma banValue_category_inj : forall c c' v v',
  banValue (category_name c) v = banValue (category_name c') v' -> c = c'.
Proof.
  intros c c' v v'; unfold banValue.
  destruct c, c'; simpl; intros H; try reflexivity; discriminate.
Qed.

(** X8. Clicking a displayed attribute whose value is truthy flips its
    own ban mark and leaves the marks of the other two attributes as
    they were. *)
Theorem clickAttribute_flips_mark : forall c it s,
  JS.truthy (item_field c it) = true ->
  attributeBanned c it (banList (clickAttribute c it s))
    = negb (attributeBanned c it (banList s)) /\
  forall c', c' <> c ->
    attributeBanned c' it (banList (clickAttribute c it s))
      = attributeBanned c' it (banList s).
Proof.
  intros c it s T; unfold clickAttribute, attributeBanned.
  rewrite handleBanToggle_banList.
  set (l := banList s).
  pose proof (toggleList_In (JS.Str (category_name c)) (item_field c it) l) as M.
  cbn [JS.toString] in M.
  set (bv := banValue (category_name c) (item_field c it)) in *.
  split.
  - destruct (JS.includes l bv) eqn:E; simpl.
    + apply includes_not_In; rewrite (M bv T).
      apply includes_In in E; tauto.
    + apply includes_In; rewrite (M bv T).
      apply includes_not_In in E; tauto.
  - intros c' N.
    set (bv' := banValue (category_name c') (item_field c' it)).
    assert (D : bv' <> bv).
    { intros H; apply banValue_category_inj in H; contradiction. }
    destruct (JS.includes l bv') eqn:E.
    + apply includes_In; rewrite (M bv' T).
      apply includes_In in E; tauto.
    + apply includes_not_In; rewrite (M bv' T).
      apply includes_not_In in E; tauto.
Qed.

Lemma clickAttribute_flips_mark_witness :
  JS.truthy (item_field CArtist (newItem monet)) = true /\
  attributeBanned CArtist (newItem monet)
    (banList (clickAttribute CArtist (newItem monet) monetShown)) = true.
Proof.
  split; [reflexivity|].
  exact (proj1 (clickAttribute_flips_mark CArtist (newItem monet) monetShown
                  eq_refl)).
Defined.

(** X9. A ban takes effect on the next refresh: once a click has stored
    the entry of a displayed attribute, the ban filter run with the new
    ban list removes every record that carries that value in that
    category, so no such record can be selected. *)
Theorem clickAttribute_excludes : forall c it s,
  JS.truthy (item_field c it) = true ->
  attributeBanned c it (banList s) = false ->
  forall data a r,
    artwork_field c a = item_field c it ->
    ~ In a (filteredArtworks (banList (clickAttribute c it s)) data) /\
    outcome (banList (clickAttribute c it s)) (Json (Some data)) r <> Selected a.
Proof.
  intros c it s T Hb data a r Hf.
  assert (N : ~ In a (filteredArtworks (banList (clickAttribute c it s)) data)).
  { intros Hin; unfold filteredArtworks in Hin; apply filter_In in Hin.
    destruct Hin as [_ Hk]; apply keepArtwork_iff in Hk; destruct Hk as [_ Hclean].
    apply (proj1 (banned_false_iff _ _ _) (Hclean c)); rewrite Hf; [assumption|].
    unfold clickAttribute; rewrite handleBanToggle_banList.
    unfold attributeBanned in Hb; apply includes_not_In in Hb.
    rewrite (toggleList_absent (JS.Str (category_name c)) (item_field c it)
               (banList s) T Hb).
    apply in_or_app; right; left; reflexivity. }
  split; [exact N|].
  intros O; apply outcome_Selected in O.
  destruct O as (data' & E & Hin); injection E as <-; contradiction.
Qed.

Lemma clickAttribute_excludes_witness :
  JS.truthy (item_field CArtist (newItem monet)) = true /\
  attributeBanned CArtist (newItem monet) (banList monetShown) = false /\
  ~ In monet (filteredArtworks
                (banList (clickAttribute CArtist (newItem monet) monetShown))
                [monet; degas]).
Proof.
  split; [reflexivity|]; split; [reflexivity|].
  exact (proj1 (clickAttribute_excludes CArtist (newItem monet) monetShown
                  eq_refl eq_refl [monet; degas] monet 0 eq_refl)).
Defined.

(** ** The selector on any batch *)




Section Rounding.

Local Open Scope Z_scope.

Lemma scale_split : Binary64.scale = 2 ^ 53 * 2 ^ 1021.
Proof. unfold Binary64.scale; rewrite <- Z.pow_add_r by lia; reflexivity. Qed.

Lemma round53_error : forall X,
  0 <= X -> 2 ^ 53 * Z.abs (Binary64.round53 X - X) <= X.
Proof.
  intros X HX; unfold Binary64.round53.
  destruct (Z.ltb_spec X (2 ^ 53)) as [Hs|Hb].
  - rewrite Z.sub_diag; simpl Z.abs; lia.
  - assert (HL : 53 <= Z.log2 X).
    { change 53 with (Z.log2 (2 ^ 53)); apply Z.log2_le_mono; exact Hb. }
    assert (Xpos : 0 < X) by (pose proof (Z.pow_pos_nonneg 2 53); lia).
    set (j := Z.log2 X - 52).
    assert (Hj : 1 <= j) by (unfold j; lia).
    assert (HP : 2 ^ j = 2 * 2 ^ (j - 1)).
    { rewrite <- Z.pow_succ_r by lia; f_equal; lia. }
    assert (Hh : 0 < 2 ^ (j - 1)) by (apply Z.pow_pos_nonneg; lia).
    assert (HlogX : 2 ^ 52 * 2 ^ j <= X).
    { rewrite <- Z.pow_add_r by lia.
      replace (52 + j) with (Z.log2 X) by (unfold j; lia).
      apply Z.log2_spec; assumption. }
    pose proof (Z.div_mod X (2 ^ j) ltac:(lia)) as Hdm.
    pose proof (Z.mod_pos_bound X (2 ^ j) ltac:(lia)) as Hrem.
    set (P := 2 ^ j) in *. set (H := 2 ^ (j - 1)) in *.
    set (q := X / P) in *. set (rem := X mod P) in *.
    change (2 ^ 53) with 9007199254740992 in *.
    change (2 ^ 52) with 4503599627370496 in *.
    cbv zeta.
    destruct (Z.ltb_spec rem H) as [C1|C1];
      [|destruct (Z.ltb_spec H rem) as [C2|C2]; [|destruct (Z.even q)]];
      lia.
Qed.

Lemma pow2_1021_pos : 0 < 2 ^ 1021.
Proof. apply Z.pow_pos_nonneg; lia. Qed.



Lemma randomIndex64_reaches : forall n i,
  (i < n)%nat -> Z.of_nat n < 2 ^ 32 ->
  let a := ((2 * Z.of_nat i + 1) * 2 ^ 52) / Z.of_nat n in
  Binary64.unit_draw (a * 2 ^ 1021) /\
  randomIndex64 (a * 2 ^ 1021) n = Z.of_nat i.
Proof.
  intros n i Hi Hn a.
  pose proof pow2_1021_pos as HS.
  set (N := Z.of_nat n) in *. set (I := Z.of_nat i) in *.
  assert (HI : 0 <= I < N) by (unfold I, N; lia).
  pose proof (Z.div_mod ((2 * I + 1) * 2 ^ 52) N ltac:(lia)) as Hdm.
  pose proof (Z.mod_pos_bound ((2 * I + 1) * 2 ^ 52) N ltac:(lia)) as Hrem.
  fold a in Hdm.
  set (rem := ((2 * I + 1) * 2 ^ 52) mod N) in *.
  change (2 ^ 52) with 4503599627370496 in *.
  change (2 ^ 32) with 4294967296 in *.
  assert (Ha : 0 <= a < 9007199254740992).
  { split; [apply Z.div_pos; lia|apply Z.div_lt_upper_bound; lia]. }
  split.
  - split.
    + rewrite scale_split; change (2 ^ 53) with 9007199254740992. nia.
    + exists a, 1021; change (2 ^ 53) with 9007199254740992.
      repeat split; lia.
  - unfold randomIndex64, Binary64.floor, Binary64.mul_nat; fold N.
    assert (HX : 0 <= a * 2 ^ 1021 * N) by nia.
    pose proof (round53_error _ HX) as He.
    rewrite scale_split.
    set (D := Binary64.round53 (a * 2 ^ 1021 * N)) in *.
    set (S := 2 ^ 1021) in *.
    change (2 ^ 53) with 9007199254740992 in *.
    set (T := N * a) in *.
    assert (EX : a * S * N = T * S) by (unfold T; ring).
    rewrite EX in He.
    assert (HT : (2 * I + 1) * 4503599627370496 - N < T <= (2 * I + 1) * 4503599627370496) by lia.
    assert (A0 : I * 81129638414606681695789005144064
                 <= 9007199254740991 * T) by lia.
    assert (B0 : 9007199254740993 * T
                 < (I + 1) * 81129638414606681695789005144064) by lia.
    apply (Z.mul_le_mono_nonneg_r _ _ S) in A0; [|lia].
    apply (Z.mul_lt_mono_pos_r S) in B0; [|lia].
    symmetry; apply Z.div_unique with (r := D - 9007199254740992 * S * I); lia.
Qed.

End Rounding.

(** The rounded product and the exact one can fall on different sides of
    an integer: for the binary64 value nearest to 0.7 and ten records the
    code computes index 7, the exact product has floor 6. *)
Example rounding_crosses_integer :
  randomIndex64 sevenTenths 10 = 7%Z /\
  randomIndex (6305039478318694 # 9007199254740992) 10 = 6%Z.
Proof. split; vm_compute; reflexivity. Qed.

(** Ties go to the even significand: 2^53 + 1 rounds down to 2^53 and
    2^53 + 3 rounds up to 2^53 + 4; one unit more or less is not a tie. *)
Example round53_ties :
  Binary64.round53 (2 ^ 53 + 1) = (2 ^ 53)%Z /\
  Binary64.round53 (2 ^ 53 + 3) = (2 ^ 53 + 4)%Z /\
  Binary64.round53 (2 ^ 54 + 1) = (2 ^ 54)%Z /\
  Binary64.round53 (2 ^ 54 + 3) = (2 ^ 54 + 4)%Z.
Proof. repeat split. Qed.




(** X11. No record of the filtered batch is out of reach of the
    selector: for the record at any position of an array (its length is
    below 2^32) there is a binary64 draw in [0, 1) whose rounded product
    has that position as its floor. *)
Theorem randomArtwork64_reaches : forall filtered i a,
  (Z.of_nat (List.length filtered) < 2 ^ 32)%Z ->
  nth_error filtered i = Some a ->
  exists R, Binary64.unit_draw R /\
            randomIndex64 R (List.length filtered) = Z.of_nat i /\
            randomArtwork64 R filtered = Some a.
Proof.
  intros filtered i a Hn H.
  assert (Hi : i < List.length filtered)
    by (apply nth_error_Some; rewrite H; discriminate).
  destruct (randomIndex64_reaches (List.length filtered) i Hi Hn) as [HR I].
  eexists; split; [exact HR|]. split; [exact I|].
  unfold randomArtwork64; rewrite I.
  destruct (Z.ltb_spec (Z.of_nat i) 0) as [L|_]; [lia|].
  rewrite Nat2Z.id; exact H.
Qed.

Lemma randomArtwork64_reaches_witness :
  (Z.of_nat (List.length [monet; degas]) < 2 ^ 32)%Z /\
  nth_error [monet; degas] 1 = Some degas /\
  exists R, Binary64.unit_draw R /\
            randomArtwork64 R [monet; degas] = Some degas.
Proof.
  split; [reflexivity|]. split; [reflexivity|].
  destruct (randomArtwork64_reaches [monet; degas] 1 degas eq_refl eq_refl)
    as (R & HR & _ & Ha).
  exists R; split; [exact HR|exact Ha].
Defined.

(** ** Refresh as a whole *)

(** X12. A refresh during which nothing else happens ends in one of two
    ways: a record is selected, it is displayed and no error message is
    set; or no record is selected, an error message is set and the page
    shows the item it had before. The ban list is the same in both. *)
Theorem fetchRandomArtwork_dichotomy : forall resp r s,
  let s' := fetchRandomArtwork resp r s in
  banList s' = banList s /\
  ((exists a, outcome (banList s) resp r = Selected a /\
              displayed s' = Some (newItem a) /\ error s' = None) \/
   (is_error (outcome (banList s) resp r) = true /\
    (exists message, error s' = Some message) /\ displayed s' = item s)).
Proof.
  intros resp r s s'; subst s'; unfold fetchRandomArtwork.
  rewrite fetchSettle_outcome.
  destruct (outcome (banList s) resp r) as [a| | |m] eqn:O;
    (split; [reflexivity|]).
  - left; exists a; repeat split.
  - right; repeat split; eexists; reflexivity.
  - right; repeat split; eexists; reflexivity.
  - right; repeat split; eexists; reflexivity.
Qed.


(** ** Invariants of the running application *)

(** X14. In every reachable configuration the ban list has no duplicate
    and each of its entries is a category name, a colon and a non-empty
    value; the type shown on its row is that category, never the
    fallback ["unknown"]. *)
Theorem reachable_banList_entries : forall cfg,
  reachable cfg ->
  NoDup (banList (app cfg)) /\
  forall e, In e (banList (app cfg)) ->
    exists c v, v <> "" /\ e = entry c v /\
                getBanType e = JS.Str (category_name c) /\
                getBanType e <> JS.Str "unknown".
Proof.
  intros cfg Hreach; split.
  - destruct (reachable_toggled cfg Hreach) as (t & Ht & E).
    rewrite <- E; apply toggled_NoDup; assumption.
  - intros e Hin.
    destruct (reachable_wf cfg Hreach) as [Hwf _].
    unfold wf_list in Hwf; rewrite Forall_forall in Hwf.
    destruct (Hwf e Hin) as (c & v & Hv & ->).
    exists c, v; rewrite getBanType_entry.
    repeat split; try assumption.
    destruct c; discriminate.
Qed.

Lemma reachable_banList_entries_witness :
  reachable monetBanned /\ NoDup (banList (app monetBanned)).
Proof.
  split; [exact monetBanned_reachable|].
  exact (proj1 (reachable_banList_entries monetBanned monetBanned_reachable)).
Defined.

(** X15. The Discover button is disabled while loading, so at most one
    refresh is in flight: in every reachable configuration either the
    loading flag is set, no error message is shown and exactly one fetch
    is pending, or the flag is clear and none is pending. *)
Theorem reachable_single_flight : forall cfg,
  reachable cfg ->
  (loading (app cfg) = true /\ error (app cfg) = None /\
   displayed (app cfg) = None /\
   exists captured, pending cfg = [captured]) \/
  (loading (app cfg) = false /\ pending cfg = []).
Proof.
  induction 1 as [|cfg cfg' _ IH Hstep].
  - left; repeat split; eexists; reflexivity.
  - destruct Hstep as [s p Hl|s p1 captured p2 resp r Hr|s p c it Hd|s p bv Hin];
      cbn [app pending] in *.
    + destruct IH as [(L & _)|(_ & ->)]; [congruence|].
      left; repeat split; eexists; reflexivity.
    + right; split; [reflexivity|].
      destruct IH as [(_ & _ & _ & c0 & E)|(_ & E)].
      * destruct p1 as [|x [|y p1]]; simpl in E; [|discriminate E|discriminate E].
        injection E as _ ->; reflexivity.
      * destruct p1; discriminate E.
    + unfold clickAttribute, displayed.
      destruct (handleBanToggle_frame (JS.Str (category_name c))
                  (item_field c it) s) as (Ei & El & Ee).
      rewrite Ei, El, Ee; exact IH.
    + unfold clickBanEntry, displayed.
      destruct (handleBanToggle_frame (getBanType bv) (getDisplayValue bv) s)
        as (Ei & El & Ee).
      rewrite Ei, El, Ee; exact IH.
Qed.

Lemma reachable_single_flight_witness :
  reachable monetBanned /\
  loading (app monetBanned) = false /\ pending monetBanned = [].
Proof.
  split; [exact monetBanned_reachable|].
  destruct (reachable_single_flight monetBanned monetBanned_reachable)
    as [(L & _)|H]; [discriminate L|exact H].
Defined.

(** X16. Whatever item a reachable configuration holds was built from a
    catalog record with a non-empty image reference, and its image URL
    is the IIIF address of that reference. *)
Theorem reachable_item_image : forall cfg it,
  reachable cfg ->
  item (app cfg) = Some it ->
  exists a img,
    it = newItem a /\ image_id a = JS.Str img /\ img <> "" /\
    imageUrl it
    = ("https://www.artic.edu/iiif/2/" ++ img ++ "/full/843,/0/default.jpg")%string.
Proof.
  intros cfg it Hreach; revert it.
  induction Hreach as [|cfg cfg' _ IH Hstep]; intros it Hit.
  - discriminate Hit.
  - destruct Hstep as [s p Hl|s p1 captured p2 resp r Hr|s p c it0 Hd|s p bv Hin];
      cbn [app pending] in *.
    + apply IH; exact Hit.
    + rewrite fetchSettle_outcome in Hit.
      destruct (outcome captured resp r) as [a| | |m] eqn:O;
        cbn [item] in Hit; try (apply IH; exact Hit).
      injection Hit as <-.
      destruct (outcome_Selected _ _ _ _ O) as (data & _ & Ha).
      unfold filteredArtworks in Ha; apply filter_In in Ha.
      destruct Ha as [_ Hk]; apply keepArtwork_iff in Hk; destruct Hk as [Hi _].
      apply truthy_Str in Hi; destruct Hi as (img & E & Himg).
      exists a, img; repeat split; try assumption.
      unfold newItem; cbn [imageUrl]; rewrite E; reflexivity.
    + apply IH.
      destruct (handleBanToggle_frame (JS.Str (category_name c))
                  (item_field c it0) s) as (Ei & _).
      unfold clickAttribute in Hit; rewrite Ei in Hit; exact Hit.
    + apply IH.
      destruct (handleBanToggle_frame (getBanType bv) (getDisplayValue bv) s)
        as (Ei & _).
      unfold clickBanEntry in Hit; rewrite Ei in Hit; exact Hit.
Qed.

Lemma reachable_item_image_witness :
  reachable monetBanned /\
  item (app monetBanned) = Some (newItem monet) /\
  exists a img, newItem monet = newItem a /\ image_id a = JS.Str img /\ img <> "".
Proof.
  split; [exact monetBanned_reachable|]; split; [reflexivity|].
  destruct (reachable_item_image monetBanned (newItem monet)
              monetBanned_reachable eq_refl) as (a & img & E & Hi & Hn & _).
  exists a, img; repeat split; assumption.
Defined.

(** ** Rows and labels *)

Lemma split_parts_without_sep : forall sep s,
  Forall (fun p => JS.contains sep p = false) (JS.split sep s).
Proof.
  intros sep; induction s as [|ch rest IH]; simpl.
  - repeat constructor.
  - destruct (Ascii.eqb ch sep) eqn:E.
    + constructor; [reflexivity|exact IH].
    + destruct (JS.split sep rest) as [|p ps]; simpl.
      * constructor; [simpl; rewrite E; reflexivity|constructor].
      * inversion IH as [|? ? Hp Hps]; subst.
        constructor; [simpl; rewrite E; exact Hp|exact Hps].
Qed.

(** X17. The two row helpers always return strings, and those strings
    hold no colon except when the stored string itself has none: for a
    stored string without a colon the type is ["unknown"] and the value
    is the string itself; for one with a colon the type is the part
    before the first colon and the value is a colon-free part, so a row
    click can never toggle a value that contains a colon. *)
Theorem row_helpers_parts : forall bv,
  exists type value,
    getBanType bv = JS.Str type /\ getDisplayValue bv = JS.Str value /\
    JS.contains colon value = false /\
    (JS.contains colon bv = false -> type = "unknown" /\ value = bv) /\
    (JS.contains colon bv = true ->
       JS.contains colon type = false /\
       exists rest more, bv = (type ++ ":" ++ rest)%string /\
                         JS.split colon rest = value :: more).
Proof.
  intros bv; unfold getBanType, getDisplayValue.
  destruct (JS.contains colon bv) eqn:C.
  - destruct (contains_first_sep colon bv C) as (p & rest & -> & Hp).
    rewrite (split_at_first_sep colon p rest Hp).
    pose proof (split_parts_without_sep colon rest) as F.
    destruct (JS.split colon rest) as [|q qs] eqn:E;
      [exfalso; exact (split_not_nil colon rest E)|].
    inversion F as [|? ? Hq _]; subst.
    exists p, q; cbn.
    repeat split; try assumption; try discriminate.
    exists rest, qs; split; [reflexivity|exact E].
  - rewrite (split_without_sep colon bv C); cbn.
    exists "unknown", bv; repeat split; try assumption; discriminate.
Qed.

(** X18. What is shown is what is banned: for an attribute with a
    truthy value the label is that value and a click toggles the entry
    made of the category and the label; for a falsy value the label is
    ["Unknown"] and a click changes nothing. *)
Theorem attributeLabel_click : forall c it s,
  (JS.truthy (item_field c it) = true ->
     item_field c it = JS.Str (attributeLabel c it) /\
     attributeLabel c it <> "" /\
     (In (entry c (attributeLabel c it)) (banList (clickAttribute c it s))
      <-> ~ In (entry c (attributeLabel c it)) (banList s))) /\
  (JS.truthy (item_field c it) = false ->
     attributeLabel c it = "Unknown" /\ clickAttribute c it s = s).
Proof.
  intros c it s; unfold attributeLabel, clickAttribute; split; intros T; rewrite T.
  - pose proof T as T'; apply truthy_Str in T'; destruct T' as (v & E & Hv).
    rewrite E in *; cbn [JS.toString].
    repeat split; try assumption.
    + rewrite handleBanToggle_banList.
      rewrite (toggleList_In _ _ _ _ T); unfold entry; cbn [JS.toString]; tauto.
    + rewrite handleBanToggle_banList.
      rewrite (toggleList_In _ _ _ _ T); unfold entry; cbn [JS.toString]; tauto.
  - split; [reflexivity|].
    unfold handleBanToggle; rewrite T; reflexivity.
Qed.
